(** * file-container-analyzer: a shallow embedding of [main.py]

    The script detects whether a file is a ZIP or an OLE container, lists
    the embedded items and optionally writes each of them to a flat output
    directory.  The container parsers ([zipfile], [olefile]), [mimetypes]
    and the operating system are not part of the repository: they appear
    here as the values they hand back to the script (sections 2 and 3),
    and the script itself is translated function by function (section 4). *)

From Stdlib Require Import ZArith Ascii String List Strings.Byte.
From stdpp Require Import gmap strings list fin_maps.

Local Open Scope string_scope.
Local Open Scope list_scope.

(** ** 1. Python [str] and [os.path] (POSIX flavour) *)

Module PyStr.

(** [s.rfind(c)] for a one-character needle: the greatest index holding
    [c], or [-1].  [idx] is the index of the head of [s], [last] the best
    index seen so far. *)
Fixpoint rfind_from (s : string) (c : ascii) (idx last : Z) : Z :=
  match s with
  | EmptyString => last
  | String a s' =>
      rfind_from s' c (idx + 1)%Z (if Ascii.eqb a c then idx else last)
  end.

Definition rfind (s : string) (c : ascii) : Z := rfind_from s c 0%Z (-1)%Z.

(** The slice [s[n:]]. *)
Fixpoint slice_from (n : nat) (s : string) : string :=
  match n, s with
  | O, _ => s
  | S n', String _ s' => slice_from n' s'
  | S _, EmptyString => EmptyString
  end.

Definition startswith (s : string) (c : ascii) : bool :=
  match s with
  | String a _ => Ascii.eqb a c
  | EmptyString => false
  end.

Fixpoint endswith (s : string) (c : ascii) : bool :=
  match s with
  | EmptyString => false
  | String a EmptyString => Ascii.eqb a c
  | String _ s' => endswith s' c
  end.

(** [s.replace(old, new)] where both are one character long. *)
Fixpoint replace (s : string) (old new : ascii) : string :=
  match s with
  | EmptyString => EmptyString
  | String a s' => String (if Ascii.eqb a old then new else a) (replace s' old new)
  end.

(** [sep.join(parts)]. *)
Definition join (sep : string) (parts : list string) : string :=
  String.concat sep parts.

(** [c in s]. *)
Fixpoint contains (s : string) (c : ascii) : bool :=
  match s with
  | EmptyString => false
  | String a s' => Ascii.eqb a c || contains s' c
  end.

End PyStr.

Module OsPath.

Definition sep : ascii := "/"%char.

(** [posixpath.basename]: [i = p.rfind(sep) + 1; return p[i:]]. *)
Definition basename (p : string) : string :=
  let i := (PyStr.rfind p sep + 1)%Z in
  PyStr.slice_from (Z.to_nat i) p.

(** [posixpath.join(a, b)] with a single second component. *)
Definition join (a b : string) : string :=
  if PyStr.startswith b sep then b
  else if (String.eqb a "" || PyStr.endswith a sep)%bool then a +:+ b
  else a +:+ String sep b.

End OsPath.

(** ** 2. The world around the script *)

Abbreviation bytes := (list byte).

#[global] Instance byte_eq_decision : EqDecision byte := Byte.byte_eq_dec.

(** Python exceptions.  The script tells [zipfile.BadZipFile] from every
    other [Exception]; [exn_msg] is what [f"{e}"] prints. *)
Inductive exn : Type :=
  | BadZipFile (msg : string)
  | OtherError (msg : string).

Definition exn_msg (e : exn) : string :=
  match e with
  | BadZipFile m => m
  | OtherError m => m
  end.

Inductive result (A : Type) : Type :=
  | Ok (a : A)
  | Raise (e : exn).
Arguments Ok {A} a.
Arguments Raise {A} e.

(** The file system as the script sees it.  [store] holds the regular
    files with their content, each under its own name; [links] are the
    paths that lead to a file of another name (a symbolic link, another
    spelling of the same path); [dirs] are the known directories;
    [denied] are the paths the operating system refuses to create or to
    open for writing (permissions, a missing parent, an invalid name),
    with the error text; [write_fault] are the writes it cuts short (no
    space left, a size limit): for a path and the bytes to write, the
    number of bytes that still reach the file and the error text.
    Paths are the strings the script passes to [open]; [os.path] is
    [posixpath].  The script creates directories and fills regular files
    only, so the links and the refusals are the same throughout a run. *)
Record FS : Type := mkFS {
  store : gmap string bytes;
  links : gmap string string;
  dirs : gset string;
  denied : string -> option string;
  write_fault : string -> bytes -> option (nat * string)
}.

(** The file a path leads to. *)
Definition resolve (fs : FS) (p : string) : string :=
  default p (links fs !! p).

(** The content seen through every path: that of the file it leads to. *)
Definition files (fs : FS) : gmap string bytes :=
  map_imap (fun p _ => store fs !! resolve fs p)
           (gset_to_gmap tt (dom (store fs) ∪ dom (links fs))).

Definition set_store (fs : FS) (m : gmap string bytes) : FS :=
  {| store := m; links := links fs; dirs := dirs fs; denied := denied fs;
     write_fault := write_fault fs |}.

Definition set_dirs (fs : FS) (d : gset string) : FS :=
  {| store := store fs; links := links fs; dirs := d; denied := denied fs;
     write_fault := write_fault fs |}.

(** A path that is empty, ends with the separator, or whose last segment
    is [.] or [..] never names a regular file. *)
Definition names_directory (p : string) : bool :=
  (String.eqb p "" || PyStr.endswith p OsPath.sep
   || String.eqb (OsPath.basename p) "." || String.eqb (OsPath.basename p) "..")%bool.

(** Why [open(p, 'wb')] is refused, if it is: there is no path, the path
    names a directory, or the system denies it. *)
Definition open_error (fs : FS) (p : string) : option exn :=
  if String.eqb p "" then Some (OtherError "No such file or directory")
  else if (names_directory p || bool_decide (p ∈ dirs fs))%bool
  then Some (OtherError "Is a directory")
  else match denied fs p with
       | Some m => Some (OtherError m)
       | None => None
       end.

(** [open(p, 'wb')]: when it is not refused, the file the path leads to
    exists afterwards and is empty. *)
Definition os_open_wb (fs : FS) (p : string) : result FS :=
  match open_error fs p with
  | Some e => Raise e
  | None => Ok (set_store fs (<[resolve fs p := []]> (store fs)))
  end.

(** What a write of [data] through [p] leaves in the file, and the
    exception it raises when it is cut short. *)
Definition written (fs : FS) (p : string) (data : bytes) : bytes :=
  match write_fault fs p data with
  | Some (n, _) => firstn n data
  | None => data
  end.

Definition write_error (fs : FS) (p : string) (data : bytes) : option exn :=
  match write_fault fs p data with
  | Some (_, m) => Some (OtherError m)
  | None => None
  end.

(** [target.write(data)] followed by the close at the end of [with]. *)
Definition os_write (fs : FS) (p : string) (data : bytes) : FS * option exn :=
  (set_store fs (<[resolve fs p := written fs p data]> (store fs)),
   write_error fs p data).

(** [pathlib.Path(d).mkdir(parents=True, exist_ok=True)]: refused when a
    regular file has that name or the path is denied. *)
Definition os_mkdir (fs : FS) (d : string) : result FS :=
  match files fs !! d with
  | Some _ => Raise (OtherError "File exists")
  | None =>
      match denied fs d with
      | Some m => Raise (OtherError m)
      | None => Ok (set_dirs fs ({[d]} ∪ dirs fs))
      end
  end.

(** The file named on the command line, as the run finds it when it
    starts: there is none; the path cannot even be examined
    ([Path.exists] raises, as for a name that is too long or a parent
    directory that may not be searched); the file is there but cannot be
    opened for reading; or it is there with this content.  Every probe
    and the opening of the container come before the first write of a
    run, so this is what they see.  The file is part of the file system
    all the same: a run may write to it, and a later run finds it as the
    earlier one left it ([input_at] below). *)
Inductive InputFile : Type :=
  | Missing
  | Inaccessible (e : exn)
  | Unreadable (e : exn)
  | Readable (content : bytes).

(** One member of a ZIP archive: the two directory fields the script
    reads, and what [zip_ref.open(file_info)] and then [source.read()]
    give for it in the run (the outer result is the open, the inner one
    the read).  The archive stays open during the loop: a write of the
    run that replaces the archive file itself shows up here, as the
    outcome of the reads that come after it. *)
Record ZipInfo : Type := mkZipInfo {
  filename : string;
  file_size : nat;
  zi_source : result (result bytes)
}.

(** An opened compound file: [ole.listdir()]; for a joined path, what
    [ole.openstream(path).read()] gives in the run (the library looks the
    path up again in the directory); and, for the name components of a
    stream of the directory, the bytes the file stores for that very
    stream. *)
Record OleFileIO : Type := mkOle {
  listdir : result (list (list string));
  openstream_read : string -> result bytes;
  stream_data : list string -> bytes
}.

(** The third-party functions, as functions of the bytes of the file. *)
Record Libs : Type := mkLibs {
  guess_type : string -> option string;
  zipfile_is_zipfile : bytes -> bool;
  zipfile_ZipFile : bytes -> result (list ZipInfo);
  olefile_isOleFile : bytes -> bool;
  olefile_OleFileIO : bytes -> result OleFileIO
}.

(** ** 3. Log records and the trace of a run *)

Inductive Level : Type := DEBUG | INFO | WARNING | ERROR.

(** One constructor per format string of [main.py]. *)
Inductive Msg : Type :=
  | ProcessingZip (filepath : string)
  | FoundFile (filename : string) (size : nat) (file_type : string)
  | ExtractedTo (name output_path : string)
  | ErrorExtracting (filename e : string)
  | NotValidZip (filepath : string)
  | ErrorProcessing (filepath e : string)
  | NotValidOle (filepath : string)
  | ProcessingOle (filepath : string)
  | FoundStream (full_stream_path : string) (size : nat) (file_type : string)
  | ErrorExtractingStream (full_stream_path e : string)
  | VerboseEnabled
  | FileNotFound (filepath : string)
  | Unsupported (filepath : string)
  | DetectedZipHeader
  | CouldNotIdentify (filepath : string)
  | ErrorProbing (e : string).

(** What a run does, in order: the records it logs and the calls it makes
    into the libraries and the operating system. *)
Inductive Event : Type :=
  | Log (lvl : Level) (m : Msg)
  | CallExists (filepath : string)
  | CallMkdir (output_dir : string)
  | CallIsZipfile (filepath : string)
  | CallIsOleFile (filepath : string)
  | CallReadHeader (filepath : string) (n : nat)
  | CallZipFile (filepath : string)
  | CallZipOpen (filename : string)
  | CallSourceRead (filename : string)
  | CallOleFileIO (filepath : string)
  | CallListdir
  | CallOpenstream (full_stream_path : string)
  | CallOleClose
  | CallOpenWb (output_path : string)
  | CallWrite (output_path : string) (data : bytes).

(** A computation of the script: it transforms the file system, leaves a
    trace, and returns or raises. *)
Definition M (A : Type) : Type := FS -> FS * list Event * result A.

Definition ret {A} (a : A) : M A := fun fs => (fs, [], Ok a).

Definition raise {A} (e : exn) : M A := fun fs => (fs, [], Raise e).

Definition bind {A B} (m : M A) (k : A -> M B) : M B :=
  fun fs =>
    match m fs with
    | (fs1, t1, Ok a) =>
        match k a fs1 with
        | (fs2, t2, r) => (fs2, t1 ++ t2, r)
        end
    | (fs1, t1, Raise e) => (fs1, t1, Raise e)
    end.

(** [try: m  except Exception as e: h e]. *)
Definition try_except {A} (m : M A) (h : exn -> M A) : M A :=
  fun fs =>
    match m fs with
    | (fs1, t1, Ok a) => (fs1, t1, Ok a)
    | (fs1, t1, Raise e) =>
        match h e fs1 with
        | (fs2, t2, r) => (fs2, t1 ++ t2, r)
        end
    end.

Definition emit (ev : Event) : M unit := fun fs => (fs, [ev], Ok tt).

Definition logging (lvl : Level) (m : Msg) : M unit := emit (Log lvl m).

Definition of_result {A} (r : result A) : M A :=
  match r with
  | Ok a => ret a
  | Raise e => raise e
  end.

Declare Scope script_scope.
Delimit Scope script_scope with script.
Notation "x <- m ;; k" := (bind m (fun x => k))
  (at level 100, m at next level, k at level 200, right associativity) : script_scope.
Notation "m ;; k" := (bind m (fun _ => k))
  (at level 100, k at level 200, right associativity) : script_scope.
Local Open Scope script_scope.

(** [for x in l: body x]. *)
Fixpoint for_each {A} (l : list A) (body : A -> M unit) : M unit :=
  match l with
  | [] => ret tt
  | x :: l' => body x ;; for_each l' body
  end.

(** The calls into the operating system and the libraries. *)
Definition open_wb (p : string) : M unit :=
  fun fs =>
    match os_open_wb fs p with
    | Ok fs' => (fs', [CallOpenWb p], Ok tt)
    | Raise e => (fs, [CallOpenWb p], Raise e)
    end.

Definition write (p : string) (data : bytes) : M unit :=
  fun fs =>
    match os_write fs p data with
    | (fs', None) => (fs', [CallWrite p data], Ok tt)
    | (fs', Some e) => (fs', [CallWrite p data], Raise e)
    end.

Definition mkdir (d : string) : M unit :=
  fun fs =>
    match os_mkdir fs d with
    | Ok fs' => (fs', [CallMkdir d], Ok tt)
    | Raise e => (fs, [CallMkdir d], Raise e)
    end.

Definition no_such_file : exn := OtherError "No such file or directory".

(** [pathlib.Path(filepath).exists()]. *)
Definition path_exists (filepath : string) (inp : InputFile) : M bool :=
  emit (CallExists filepath) ;;
  match inp with
  | Missing => ret false
  | Inaccessible e => raise e
  | Unreadable _ | Readable _ => ret true
  end.

(** Opening the input for reading, the first step of every library call
    that takes a path. *)
Definition read_input (inp : InputFile) : result bytes :=
  match inp with
  | Missing => Raise no_such_file
  | Inaccessible e => Raise e
  | Unreadable e => Raise e
  | Readable b => Ok b
  end.

Section Script.

Variable L : Libs.

(** [zipfile.is_zipfile] swallows the [OSError] of an unreadable file. *)
Definition is_zipfile (filepath : string) (inp : InputFile) : M bool :=
  emit (CallIsZipfile filepath) ;;
  ret (match read_input inp with
       | Ok b => zipfile_is_zipfile L b
       | Raise _ => false
       end).

(** [olefile.isOleFile] lets it through. *)
Definition isOleFile (filepath : string) (inp : InputFile) : M bool :=
  emit (CallIsOleFile filepath) ;;
  b <- of_result (read_input inp) ;;
  ret (olefile_isOleFile L b).

Definition ZipFile (filepath : string) (inp : InputFile) : M (list ZipInfo) :=
  emit (CallZipFile filepath) ;;
  b <- of_result (read_input inp) ;;
  of_result (zipfile_ZipFile L b).

Definition OleFileIO_open (filepath : string) (inp : InputFile) : M OleFileIO :=
  emit (CallOleFileIO filepath) ;;
  b <- of_result (read_input inp) ;;
  of_result (olefile_OleFileIO L b).

(** [with open(filepath, 'rb') as f: f.read(n)]. *)
Definition read_header (filepath : string) (inp : InputFile) (n : nat) : M bytes :=
  emit (CallReadHeader filepath n) ;;
  b <- of_result (read_input inp) ;;
  ret (firstn n b).

Definition zip_open (zi : ZipInfo) : M (result bytes) :=
  emit (CallZipOpen (filename zi)) ;;
  of_result (zi_source zi).

Definition source_read (name : string) (source : result bytes) : M bytes :=
  emit (CallSourceRead name) ;;
  of_result source.

Definition ole_listdir (ole : OleFileIO) : M (list (list string)) :=
  emit CallListdir ;;
  of_result (listdir ole).

Definition ole_openstream_read (ole : OleFileIO) (path : string) : M bytes :=
  emit (CallOpenstream path) ;;
  of_result (openstream_read ole path).

Definition octet_stream : string := "application/octet-stream".

(** [mimetypes.guess_type(name)[0] or "application/octet-stream"]: the
    default also replaces an empty guess, which is falsy. *)
Definition type_of (name : string) : string :=
  match guess_type L name with
  | Some t => if String.eqb t "" then octet_stream else t
  | None => octet_stream
  end.

(** ** 4. The script *)

(** The body of the [for] loop of [extract_zip] (lines 28-46);
    [continue] ends the body early. *)
Definition extract_zip_entry (output_dir : string) (list_only : bool)
    (file_info : ZipInfo) : M unit :=
  let filename := filename file_info in
  let file_size := file_size file_info in
  let file_type := type_of filename in
  logging INFO (FoundFile filename file_size file_type) ;;
  if list_only then ret tt
  else
    let safe_filename := OsPath.basename filename in
    let output_path := OsPath.join output_dir safe_filename in
    try_except
      (source <- zip_open file_info ;;
       open_wb output_path ;;
       data <- source_read filename source ;;
       write output_path data ;;
       logging INFO (ExtractedTo filename output_path))
      (fun e => logging ERROR (ErrorExtracting filename (exn_msg e))).

(** A [return] inside a [try] block is the [Some] of its value; [None]
    falls through to the code after the block. *)
Definition extract_zip (filepath : string) (inp : InputFile)
    (output_dir : string) (list_only : bool) : M bool :=
  returned <-
    try_except
      (zip_ref <- ZipFile filepath inp ;;
       logging INFO (ProcessingZip filepath) ;;
       for_each zip_ref (extract_zip_entry output_dir list_only) ;;
       ret None)
      (fun e =>
         match e with
         | BadZipFile _ =>
             logging ERROR (NotValidZip filepath) ;; ret (Some false)
         | _ =>
             logging ERROR (ErrorProcessing filepath (exn_msg e)) ;;
             ret (Some false)
         end) ;;
  match returned with
  | Some b => ret b
  | None => ret true
  end.

(** The body of the [for] loop of [extract_ole] (lines 68-88). *)
Definition extract_ole_stream (ole : OleFileIO) (output_dir : string)
    (list_only : bool) (stream_name : list string) : M unit :=
  match stream_name with
  | [] => ret tt
  | _ :: _ =>
      let full_stream_path := PyStr.join "/" stream_name in
      try_except
        (stream_data <- ole_openstream_read ole full_stream_path ;;
         let stream_size := length stream_data in
         let file_type := type_of full_stream_path in
         logging INFO (FoundStream full_stream_path stream_size file_type) ;;
         if list_only then ret tt
         else
           let safe_filename :=
             OsPath.basename (PyStr.replace full_stream_path "/" "_") in
           let output_path := OsPath.join output_dir safe_filename in
           open_wb output_path ;;
           write output_path stream_data ;;
           logging INFO (ExtractedTo full_stream_path output_path))
        (fun e =>
           logging ERROR (ErrorExtractingStream full_stream_path (exn_msg e)))
  end.

Definition extract_ole (filepath : string) (inp : InputFile)
    (output_dir : string) (list_only : bool) : M bool :=
  returned <-
    try_except
      (is_ole <- isOleFile filepath inp ;;
       if negb is_ole then
         logging ERROR (NotValidOle filepath) ;; ret (Some false)
       else
         ole <- OleFileIO_open filepath inp ;;
         logging INFO (ProcessingOle filepath) ;;
         streams <- ole_listdir ole ;;
         for_each streams (extract_ole_stream ole output_dir list_only) ;;
         emit CallOleClose ;;
         ret None)
      (fun e =>
         logging ERROR (ErrorProcessing filepath (exn_msg e)) ;;
         ret (Some false)) ;;
  match returned with
  | Some b => ret b
  | None => ret true
  end.

(** The parsed command line ([setup_argparse] is the CLI harness). *)
Record Args : Type := mkArgs {
  arg_filepath : string;
  arg_output : string;
  arg_list : bool;
  arg_verbose : bool
}.

(** What a Python function hands back. *)
Inductive pyval : Type :=
| PyNone
| PyBool (b : bool).

(** [b'PK\x03\x04']. *)
Definition zip_magic : bytes := [x50; x4b; x03; x04]%byte.

(** [main] (lines 96-134).  The values of [extract_zip] and
    [extract_ole] are dropped, as in the source; a [Raise] of the whole
    computation is an exception nobody catches. *)
Definition main (args : Args) (inp : InputFile) : M pyval :=
  (if arg_verbose args then logging DEBUG VerboseEnabled else ret tt) ;;
  let filepath := arg_filepath args in
  let output_dir := arg_output args in
  let list_only := arg_list args in
  found <- path_exists filepath inp ;;
  if negb found then
    logging ERROR (FileNotFound filepath) ;; ret PyNone
  else
    mkdir output_dir ;;
    is_zip <- is_zipfile filepath inp ;;
    if is_zip then
      extract_zip filepath inp output_dir list_only ;; ret PyNone
    else
      is_ole <- isOleFile filepath inp ;;
      if is_ole then
        extract_ole filepath inp output_dir list_only ;; ret PyNone
      else
        logging WARNING (Unsupported filepath) ;;
        try_except
          (file_header <- read_header filepath inp 4 ;;
           if bool_decide (file_header = zip_magic) then
             logging INFO DetectedZipHeader ;;
             extract_zip filepath inp output_dir list_only ;; ret tt
           else
             logging ERROR (CouldNotIdentify filepath))
          (fun e => logging ERROR (ErrorProbing (exn_msg e))) ;;
        ret PyNone.

End Script.


(** ** 5. Notions used to state the properties *)

(** The three components of a finished computation. *)
Definition fs_of {A} (r : FS * list Event * result A) : FS := fst (fst r).
Definition trace_of {A} (r : FS * list Event * result A) : list Event := snd (fst r).
Definition value_of {A} (r : FS * list Event * result A) : result A := snd r.

(** The log records of a trace, in order. *)
Fixpoint log_of (t : list Event) : list (Level * Msg) :=
  match t with
  | [] => []
  | Log lvl m :: t' => (lvl, m) :: log_of t'
  | _ :: t' => log_of t'
  end.

(** The destination lines 38-39 and 80-81 compute for an entry. *)
Definition zip_output_path (output_dir filename : string) : string :=
  OsPath.join output_dir (OsPath.basename filename).

Definition ole_output_path (output_dir : string) (stream_name : list string) : string :=
  OsPath.join output_dir
    (OsPath.basename (PyStr.replace (PyStr.join "/" stream_name) "/" "_")).

(** The directory part [os.path.join] puts in front of a relative name:
    the directory itself when it is empty (the current directory) or
    already ends with the separator, the directory and a separator
    otherwise. *)
Definition dir_prefix (a : string) : string :=
  if (String.eqb a "" || PyStr.endswith a OsPath.sep)%bool then a
  else a +:+ String OsPath.sep "".


(** A sequence of writes, each to a file of the store, and its effect. *)
Definition apply_writes (W : list (string * bytes)) (m : gmap string bytes)
  : gmap string bytes :=
  fold_left (fun acc w => <[fst w := snd w]> acc) W m.

Definition put_files (fs : FS) (W : list (string * bytes)) : FS :=
  set_store fs (apply_writes W (store fs)).



(** The changes of the store one member causes: opening the target
    empties the file it leads to, writing fills it as far as the write
    gets. *)
Definition zip_entry_writes (fs : FS) (output_dir : string) (list_only : bool)
    (zi : ZipInfo) : list (string * bytes) :=
  if list_only then []
  else
    let p := zip_output_path output_dir (filename zi) in
    match zi_source zi with
    | Raise _ => []
    | Ok source =>
        match open_error fs p with
        | Some _ => []
        | None =>
            (resolve fs p, []) ::
            match source with
            | Raise _ => []
            | Ok d => [(resolve fs p, written fs p d)]
            end
        end
    end.

(** The trace one member leaves. *)
Definition zip_entry_events (L : Libs) (fs : FS) (output_dir : string)
    (list_only : bool) (zi : ZipInfo) : list Event :=
  let name := filename zi in
  let p := zip_output_path output_dir name in
  let failed e := Log ERROR (ErrorExtracting name (exn_msg e)) in
  Log INFO (FoundFile name (file_size zi) (type_of L name)) ::
  if list_only then []
  else
    CallZipOpen name ::
    match zi_source zi with
    | Raise e => [failed e]
    | Ok source =>
        CallOpenWb p ::
        match open_error fs p with
        | Some e => [failed e]
        | None =>
            CallSourceRead name ::
            match source with
            | Raise e => [failed e]
            | Ok d =>
                CallWrite p d ::
                match write_error fs p d with
                | Some e => [failed e]
                | None => [Log INFO (ExtractedTo name p)]
                end
            end
        end
    end.

(** The same three notions for one entry of [ole.listdir()]: here the
    stream is read before the target is opened. *)
Definition ole_stream_error (fs : FS) (ole : OleFileIO) (output_dir : string)
    (list_only : bool) (stream_name : list string) : option exn :=
  match stream_name with
  | [] => None
  | _ :: _ =>
      match openstream_read ole (PyStr.join "/" stream_name) with
      | Raise e => Some e
      | Ok d =>
          if list_only then None
          else
            match open_error fs (ole_output_path output_dir stream_name) with
            | Some e => Some e
            | None => write_error fs (ole_output_path output_dir stream_name) d
            end
      end
  end.

Definition ole_stream_writes (fs : FS) (ole : OleFileIO) (output_dir : string)
    (list_only : bool) (stream_name : list string) : list (string * bytes) :=
  match stream_name with
  | [] => []
  | _ :: _ =>
      let p := ole_output_path output_dir stream_name in
      match openstream_read ole (PyStr.join "/" stream_name) with
      | Raise _ => []
      | Ok d =>
          if list_only then []
          else match open_error fs p with
               | Some _ => []
               | None => [(resolve fs p, []); (resolve fs p, written fs p d)]
               end
      end
  end.

Definition ole_stream_events (L : Libs) (fs : FS) (ole : OleFileIO)
    (output_dir : string) (list_only : bool) (stream_name : list string)
  : list Event :=
  match stream_name with
  | [] => []
  | _ :: _ =>
      let full := PyStr.join "/" stream_name in
      let p := ole_output_path output_dir stream_name in
      let failed e := Log ERROR (ErrorExtractingStream full (exn_msg e)) in
      CallOpenstream full ::
      match openstream_read ole full with
      | Raise e => [failed e]
      | Ok d =>
          Log INFO (FoundStream full (length d) (type_of L full)) ::
          if list_only then []
          else
            CallOpenWb p ::
            match open_error fs p with
            | Some e => [failed e]
            | None =>
                CallWrite p d ::
                match write_error fs p d with
                | Some e => [failed e]
                | None => [Log INFO (ExtractedTo full p)]
                end
            end
      end
  end.

(** What opening the container gives: the members of the archive, or the
    stream directory with the opened compound file. *)
Definition zip_open_result (L : Libs) (inp : InputFile) : result (list ZipInfo) :=
  match read_input inp with
  | Ok b => zipfile_ZipFile L b
  | Raise e => Raise e
  end.

Inductive OleOpening : Type :=
| OleUnreadable (e : exn)
| OleNotOle
| OleOpenFails (e : exn)
| OleListdirFails (e : exn)
| OleOpened (ole : OleFileIO) (streams : list (list string)).

Definition ole_open_result (L : Libs) (inp : InputFile) : OleOpening :=
  match read_input inp with
  | Raise e => OleUnreadable e
  | Ok b =>
      if olefile_isOleFile L b then
        match olefile_OleFileIO L b with
        | Raise e => OleOpenFails e
        | Ok ole =>
            match listdir ole with
            | Raise e => OleListdirFails e
            | Ok streams => OleOpened ole streams
            end
        end
      else OleNotOle
  end.

(** What [main] has logged and called once it starts probing the file. *)
Definition main_prefix (args : Args) : list Event :=
  (if arg_verbose args then [Log DEBUG VerboseEnabled] else [])
  ++ [CallExists (arg_filepath args); CallMkdir (arg_output args)].


Definition ole_stream_log (L : Libs) (fs : FS) (ole : OleFileIO)
    (output_dir : string) (list_only : bool) (stream_name : list string)
  : list (Level * Msg) :=
  match stream_name with
  | [] => []
  | _ :: _ =>
      let full := PyStr.join "/" stream_name in
      match openstream_read ole full with
      | Raise e => [(ERROR, ErrorExtractingStream full (exn_msg e))]
      | Ok d =>
          (INFO, FoundStream full (length d) (type_of L full)) ::
          if list_only then []
          else match ole_stream_error fs ole output_dir false stream_name with
               | Some e => [(ERROR, ErrorExtractingStream full (exn_msg e))]
               | None =>
                   [(INFO, ExtractedTo full
                             (ole_output_path output_dir stream_name))]
               end
      end
  end.


(** The format probes of a run. *)
Definition is_probe (ev : Event) : bool :=
  match ev with
  | CallIsZipfile _ | CallIsOleFile _ | CallReadHeader _ _ => true
  | _ => false
  end.

Definition probes (t : list Event) : list Event := List.filter is_probe t.

(** The targets a run opens for writing, in order. *)
Fixpoint targets (t : list Event) : list string :=
  match t with
  | [] => []
  | CallOpenWb p :: t' => p :: targets t'
  | _ :: t' => targets t'
  end.


(** [Path.exists] answered [True] for the input. *)
Definition present (inp : InputFile) : bool :=
  match inp with
  | Unreadable _ | Readable _ => true
  | Missing | Inaccessible _ => false
  end.


(** ** 6. Sample inputs *)

Module Sample.

Definition fs0 : FS := mkFS ∅ ∅ ∅ (fun _ => None) (fun _ _ => None).

(** The archive of the specification's scenario, with a directory
    placeholder and a traversal attempt added. *)
Definition readme : ZipInfo :=
  mkZipInfo "readme.txt" 2 (Ok (Ok [x68; x69]%byte)).
Definition data_dir : ZipInfo := mkZipInfo "data/" 0 (Ok (Ok [])).
Definition passwd : ZipInfo :=
  mkZipInfo "../../etc/passwd" 1 (Ok (Raise (BadZipFile "Bad CRC-32"))).
Definition info_json : ZipInfo :=
  mkZipInfo "data/info.json" 1 (Ok (Ok [x7b]%byte)).

Definition archive : list ZipInfo := [readme; data_dir; passwd; info_json].

(** A compound file with a stream below the root, a stream whose second
    name component is empty, and a stream that cannot be read. *)
Definition compound : OleFileIO :=
  mkOle (Ok [["Root Entry"; "Data"]; ["a"; ""]; ["broken"]])
        (fun path => if String.eqb path "broken"
                     then Raise (OtherError "incomplete OLE stream")
                     else Ok [x01; x02; x03]%byte)
        (fun _ => [x01; x02; x03]%byte).

Definition ole_magic : bytes := [xd0; xcf; x11; xe0; xa1; xb1; x1a; xe1]%byte.

(** Libraries that know exactly these two containers: a file starting
    with [PK] is the archive, a file starting with the OLE signature is
    the compound file. *)
Definition libs : Libs :=
  {| guess_type := fun _ => None;
     zipfile_is_zipfile := fun b => bool_decide (firstn 2 b = [x50; x4b]%byte);
     zipfile_ZipFile := fun b =>
       if bool_decide (firstn 2 b = [x50; x4b]%byte) then Ok archive
       else Raise (BadZipFile "File is not a zip file");
     olefile_isOleFile := fun b => bool_decide (firstn 8 b = ole_magic);
     olefile_OleFileIO := fun b =>
       if bool_decide (firstn 8 b = ole_magic) then Ok compound
       else Raise (OtherError "not an OLE2 structured storage file") |}.

(** A member whose final segment is [..], and a file system in which
    [out/readme.txt] is already there. *)
Definition dotdot : ZipInfo := mkZipInfo "x/.." 1 (Ok (Ok [x2e]%byte)).

Definition fs_old : FS :=
  mkFS {["out/readme.txt" := [x6f; x6c; x64]%byte]} ∅ {["out"]}
       (fun _ => None) (fun _ _ => None).

Definition zip_file : InputFile := Readable [x50; x4b; x03; x04]%byte.
Definition ole_file : InputFile := Readable ole_magic.
Definition two_bytes : InputFile := Readable [x00; x01]%byte.

Definition args_extract : Args := mkArgs "input.bin" "out" false false.
Definition args_list : Args := mkArgs "input.bin" "out" true false.

End Sample.


(** Further sample inputs, for the properties of the last sections. *)
Module MoreSamples.

(** An existing path that cannot be opened for reading. *)
Definition locked : InputFile := Unreadable (OtherError "Permission denied").

(** A path the system refuses to examine. *)
Definition too_long : InputFile := Inaccessible (OtherError "File name too long").











(** A file system in which [out/readme.txt] is a link to a file
    elsewhere. *)
Definition fs_linked : FS :=
  mkFS {["/srv/notes" := [x6f; x6c; x64]%byte]}
       {["out/readme.txt" := "/srv/notes"]} {["out"]}
       (fun _ => None) (fun _ _ => None).


End MoreSamples.

(** ** 7. Facts about paths *)

Lemma append_nil (b : string) : "" +:+ b = b.
Proof. reflexivity. Qed.

Lemma append_cons x (a b : string) : String x a +:+ b = String x (a +:+ b).
Proof. reflexivity. Qed.

Ltac push_app := rewrite ?append_cons, ?append_nil.

Section PathFacts.

Import PyStr OsPath.

Lemma rfind_from_absent s c idx last :
  contains s c = false -> rfind_from s c idx last = last.
Proof.
  revert idx last. induction s as [|a s IH]; intros idx last H; simpl in *.
  - reflexivity.
  - apply orb_false_iff in H as [Ha Hs]. rewrite Ha. now apply IH.
Qed.

Lemma rfind_from_last a b c idx last :
  contains b c = false ->
  rfind_from (a +:+ String c b) c idx last = (idx + Z.of_nat (String.length a))%Z.
Proof.
  intros Hb. revert idx last.
  induction a as [|x a IH]; intros idx last; push_app; simpl.
  - rewrite Ascii.eqb_refl, rfind_from_absent by assumption. lia.
  - rewrite IH. lia.
Qed.

Lemma slice_from_app a c b :
  slice_from (S (String.length a)) (a +:+ String c b) = b.
Proof. induction a as [|x a IH]; push_app; simpl; [reflexivity | exact IH]. Qed.

Lemma contains_split_last s c :
  contains s c = true ->
  exists a b, s = a +:+ String c b /\ contains b c = false.
Proof.
  induction s as [|x s IH]; simpl; intros H; [discriminate|].
  destruct (contains s c) eqn:Hs.
  - destruct (IH eq_refl) as (a & b & -> & Hb).
    exists (String x a), b. split; [reflexivity | assumption].
  - rewrite orb_false_r in H. apply Ascii.eqb_eq in H as ->.
    exists "", s. split; [reflexivity | assumption].
Qed.

Lemma basename_id p : contains p sep = false -> basename p = p.
Proof.
  intros H. unfold basename, rfind. now rewrite rfind_from_absent.
Qed.

Lemma basename_app a b :
  contains b sep = false -> basename (a +:+ String sep b) = b.
Proof.
  intros H. unfold basename, rfind. rewrite rfind_from_last by assumption.
  replace (Z.to_nat (0 + Z.of_nat (String.length a) + 1))
    with (S (String.length a)) by lia.
  apply slice_from_app.
Qed.

Lemma basename_no_sep p : contains (basename p) sep = false.
Proof.
  destruct (contains p sep) eqn:H.
  - destruct (contains_split_last _ _ H) as (a & b & -> & Hb).
    now rewrite basename_app.
  - now rewrite basename_id.
Qed.


Lemma replace_no_old s old new :
  old <> new -> contains (replace s old new) old = false.
Proof.
  intros Hne. induction s as [|a s IH]; simpl; [reflexivity|].
  rewrite IH, orb_false_r. destruct (Ascii.eqb a old) eqn:Ha.
  - apply Ascii.eqb_neq. congruence.
  - assumption.
Qed.

Lemma startswith_contains s c : startswith s c = true -> contains s c = true.
Proof. destruct s; simpl; [discriminate | intros ->; reflexivity]. Qed.

Lemma app_assoc_str a b c : (a +:+ b) +:+ c = a +:+ (b +:+ c).
Proof. induction a as [|x a IH]; push_app; [reflexivity | now rewrite IH]. Qed.

Lemma join_relative a b :
  contains b sep = false -> join a b = dir_prefix a +:+ b.
Proof.
  intros H. unfold join, dir_prefix.
  destruct (startswith b sep) eqn:Hs.
  - apply startswith_contains in Hs. congruence.
  - destruct (String.eqb a "" || endswith a sep)%bool; [reflexivity|].
    now rewrite app_assoc_str.
Qed.









End PathFacts.

Example basename_passwd : OsPath.basename "../../etc/passwd" = "passwd".
Proof. reflexivity. Qed.

Example basename_directory : OsPath.basename "data/" = "".
Proof. reflexivity. Qed.

Example basename_dotdot : OsPath.basename "x/.." = "..".
Proof. reflexivity. Qed.

Example join_plain : OsPath.join "out" "info.json" = "out/info.json".
Proof. reflexivity. Qed.

Example join_trailing_sep : OsPath.join "out/" "info.json" = "out/info.json".
Proof. reflexivity. Qed.

Example join_empty_name : OsPath.join "out" "" = "out/".
Proof. reflexivity. Qed.

Example join_current_directory : OsPath.join "" "info.json" = "info.json".
Proof. reflexivity. Qed.

(** ** 8. How the loops run *)

Lemma files_lookup fs p : files fs !! p = store fs !! resolve fs p.
Proof.
  unfold files. rewrite map_lookup_imap, lookup_gset_to_gmap.
  destruct (decide (p ∈ dom (store fs) ∪ dom (links fs))) as [Hin | Hout].
  - now rewrite option_guard_True.
  - rewrite option_guard_False by assumption. simpl.
    apply not_elem_of_union in Hout as [Hs Hl].
    apply not_elem_of_dom in Hs, Hl. unfold resolve. rewrite Hl. simpl.
    now rewrite Hs.
Qed.

Lemma put_files_nil fs : put_files fs [] = fs.
Proof. now destruct fs. Qed.

Lemma apply_writes_app W1 W2 m :
  apply_writes (W1 ++ W2) m = apply_writes W2 (apply_writes W1 m).
Proof. unfold apply_writes. apply fold_left_app. Qed.

Lemma put_files_app fs W1 W2 :
  put_files (put_files fs W1) W2 = put_files fs (W1 ++ W2).
Proof. unfold put_files, set_store. simpl. now rewrite apply_writes_app. Qed.

Lemma os_open_wb_put fs p :
  os_open_wb fs p =
  match open_error fs p with
  | Some e => Raise e
  | None => Ok (put_files fs [(resolve fs p, [])])
  end.
Proof. reflexivity. Qed.

Lemma os_write_put fs p d :
  os_write fs p d =
  (put_files fs [(resolve fs p, written fs p d)], write_error fs p d).
Proof. reflexivity. Qed.

Lemma open_wb_run p fs :
  open_wb p fs =
  match open_error fs p with
  | Some e => (fs, [CallOpenWb p], Raise e)
  | None => (put_files fs [(resolve fs p, [])], [CallOpenWb p], Ok tt)
  end.
Proof.
  unfold open_wb. rewrite os_open_wb_put. now destruct (open_error fs p).
Qed.

Lemma write_run p d fs :
  write p d fs =
  (put_files fs [(resolve fs p, written fs p d)], [CallWrite p d],
   match write_error fs p d with
   | Some e => Raise e
   | None => Ok tt
   end).
Proof.
  unfold write. rewrite os_write_put. now destruct (write_error fs p d).
Qed.

(** The body of the ZIP loop never raises, and does what
    [zip_entry_writes] and [zip_entry_events] say. *)
Lemma zip_entry_run L od lo zi fs :
  extract_zip_entry L od lo zi fs =
  (put_files fs (zip_entry_writes fs od lo zi),
   zip_entry_events L fs od lo zi, Ok tt).
Proof.
  unfold extract_zip_entry, zip_entry_writes, zip_entry_events, zip_output_path.
  unfold bind, try_except, logging, emit, zip_open, source_read, ret, of_result.
  destruct lo; cbn -[open_wb write].
  - now rewrite put_files_nil.
  - destruct (zi_source zi) as [source | e]; cbn -[open_wb write].
    + rewrite open_wb_run.
      destruct (open_error fs _) as [e|]; cbn -[open_wb write].
      * now rewrite put_files_nil.
      * destruct source as [d | e]; cbn -[open_wb write].
        -- rewrite write_run.
           change (write_error (put_files fs ?W) ?p ?x) with (write_error fs p x).
           change (written (put_files fs ?W) ?p ?x) with (written fs p x).
           change (resolve (put_files fs ?W) ?p) with (resolve fs p).
           rewrite put_files_app.
           destruct (write_error fs _ d); reflexivity.
        -- reflexivity.
    + now rewrite put_files_nil.
Qed.

Lemma ole_stream_run L ole od lo stream fs :
  extract_ole_stream L ole od lo stream fs =
  (put_files fs (ole_stream_writes fs ole od lo stream),
   ole_stream_events L fs ole od lo stream, Ok tt).
Proof.
  unfold extract_ole_stream, ole_stream_writes, ole_stream_events, ole_output_path.
  destruct stream as [|c stream].
  - unfold ret. now rewrite put_files_nil.
  - unfold bind, try_except, logging, emit, ole_openstream_read, ret, of_result.
    cbn -[open_wb write].
    destruct (openstream_read ole _) as [d | e]; cbn -[open_wb write].
    + destruct lo; cbn -[open_wb write].
      * now rewrite put_files_nil.
      * rewrite open_wb_run.
        destruct (open_error fs _) as [e|]; cbn -[open_wb write].
        -- now rewrite put_files_nil.
        -- rewrite write_run.
           change (write_error (put_files fs ?W) ?p ?x) with (write_error fs p x).
           change (written (put_files fs ?W) ?p ?x) with (written fs p x).
           change (resolve (put_files fs ?W) ?p) with (resolve fs p).
           rewrite put_files_app.
           destruct (write_error fs _ d); reflexivity.
    + now rewrite put_files_nil.
Qed.

(** A loop whose body only writes files, in a way that does not depend
    on the files already there, is the concatenation of its bodies. *)
Lemma for_each_run {A} (body : A -> M unit)
    (Wf : FS -> A -> list (string * bytes)) (Ef : FS -> A -> list Event) :
  (forall x fs, body x fs = (put_files fs (Wf fs x), Ef fs x, Ok tt)) ->
  (forall x fs W, Wf (put_files fs W) x = Wf fs x) ->
  (forall x fs W, Ef (put_files fs W) x = Ef fs x) ->
  forall l fs,
    for_each l body fs =
    (put_files fs (flat_map (Wf fs) l), flat_map (Ef fs) l, Ok tt).
Proof.
  intros Hbody HW HE l.
  induction l as [|x l IH]; intros fs; simpl.
  - unfold ret. now rewrite put_files_nil.
  - unfold bind. rewrite Hbody, IH, put_files_app.
    rewrite (flat_map_ext _ _ (fun y => HW y fs (Wf fs x))).
    rewrite (flat_map_ext _ _ (fun y => HE y fs (Wf fs x))).
    reflexivity.
Qed.

Lemma zip_loop_run L od lo infos fs :
  for_each infos (extract_zip_entry L od lo) fs =
  (put_files fs (flat_map (zip_entry_writes fs od lo) infos),
   flat_map (zip_entry_events L fs od lo) infos, Ok tt).
Proof.
  apply (for_each_run _ (fun fs => zip_entry_writes fs od lo)
           (fun fs => zip_entry_events L fs od lo)).
  - intros. apply zip_entry_run.
  - reflexivity.
  - reflexivity.
Qed.

Lemma ole_loop_run L ole od lo streams fs :
  for_each streams (extract_ole_stream L ole od lo) fs =
  (put_files fs (flat_map (ole_stream_writes fs ole od lo) streams),
   flat_map (ole_stream_events L fs ole od lo) streams, Ok tt).
Proof.
  apply (for_each_run _ (fun fs => ole_stream_writes fs ole od lo)
           (fun fs => ole_stream_events L fs ole od lo)).
  - intros. apply ole_stream_run.
  - reflexivity.
  - reflexivity.
Qed.

(** [extract_zip] as a whole, by what opening the archive gives. *)
Lemma extract_zip_run L fp inp od lo fs :
  extract_zip L fp inp od lo fs =
  match zip_open_result L inp with
  | Ok infos =>
      (put_files fs (flat_map (zip_entry_writes fs od lo) infos),
       CallZipFile fp :: Log INFO (ProcessingZip fp)
         :: flat_map (zip_entry_events L fs od lo) infos,
       Ok true)
  | Raise (BadZipFile m) =>
      (fs, [CallZipFile fp; Log ERROR (NotValidZip fp)], Ok false)
  | Raise (OtherError m) =>
      (fs, [CallZipFile fp; Log ERROR (ErrorProcessing fp m)], Ok false)
  end.
Proof.
  unfold extract_zip, zip_open_result, ZipFile.
  unfold bind at 1. unfold try_except. unfold bind at 1. unfold bind at 1.
  unfold emit at 1.
  destruct (read_input inp) as [b | e]; simpl.
  - unfold bind at 1. simpl. destruct (zipfile_ZipFile L b) as [infos | e]; simpl.
    + unfold bind. simpl. rewrite zip_loop_run. simpl.
      rewrite !app_nil_r. reflexivity.
    + destruct e; reflexivity.
  - destruct e; reflexivity.
Qed.

(** [extract_ole] as a whole, by what opening the compound file gives. *)
Lemma extract_ole_run L fp inp od lo fs :
  extract_ole L fp inp od lo fs =
  match ole_open_result L inp with
  | OleUnreadable e =>
      (fs, [CallIsOleFile fp; Log ERROR (ErrorProcessing fp (exn_msg e))],
       Ok false)
  | OleNotOle =>
      (fs, [CallIsOleFile fp; Log ERROR (NotValidOle fp)], Ok false)
  | OleOpenFails e =>
      (fs, [CallIsOleFile fp; CallOleFileIO fp;
            Log ERROR (ErrorProcessing fp (exn_msg e))], Ok false)
  | OleListdirFails e =>
      (fs, [CallIsOleFile fp; CallOleFileIO fp; Log INFO (ProcessingOle fp);
            CallListdir; Log ERROR (ErrorProcessing fp (exn_msg e))], Ok false)
  | OleOpened ole streams =>
      (put_files fs (flat_map (ole_stream_writes fs ole od lo) streams),
       CallIsOleFile fp :: CallOleFileIO fp :: Log INFO (ProcessingOle fp)
         :: CallListdir
         :: flat_map (ole_stream_events L fs ole od lo) streams ++ [CallOleClose],
       Ok true)
  end.
Proof.
  unfold extract_ole, ole_open_result, isOleFile, OleFileIO_open, ole_listdir.
  unfold bind at 1. unfold try_except. unfold bind at 1. unfold bind at 1.
  unfold emit at 1.
  destruct (read_input inp) as [b | e]; simpl; [|reflexivity].
  unfold bind at 1. simpl.
  destruct (olefile_isOleFile L b); simpl; [|reflexivity].
  unfold bind at 1. unfold bind at 1. unfold bind at 1. simpl.
  unfold bind at 1. simpl.
  destruct (olefile_OleFileIO L b) as [ole | e]; simpl; [|reflexivity].
  unfold bind at 1. simpl. unfold bind at 1. unfold bind at 1. simpl.
  destruct (listdir ole) as [streams | e]; simpl; [|reflexivity].
  unfold bind. rewrite ole_loop_run. simpl.
  rewrite !app_nil_r. reflexivity.
Qed.

Lemma extract_zip_returns L fp inp od lo fs :
  exists b, value_of (extract_zip L fp inp od lo fs) = Ok b.
Proof.
  rewrite extract_zip_run.
  destruct (zip_open_result L inp) as [infos | [m | m]]; eexists; reflexivity.
Qed.

Lemma extract_ole_returns L fp inp od lo fs :
  exists b, value_of (extract_ole L fp inp od lo fs) = Ok b.
Proof.
  rewrite extract_ole_run.
  destruct (ole_open_result L inp); eexists; reflexivity.
Qed.

(** The trace [main] leaves before it looks at the file's format. *)
Lemma main_run_readable L args b fs fs1 :
  os_mkdir fs (arg_output args) = Ok fs1 ->
  main L args (Readable b) fs =
  let fp := arg_filepath args in
  let od := arg_output args in
  let lo := arg_list args in
  let zip := extract_zip L fp (Readable b) od lo fs1 in
  let ole := extract_ole L fp (Readable b) od lo fs1 in
  let before := main_prefix args in
  if zipfile_is_zipfile L b then
    (fs_of zip, before ++ CallIsZipfile fp :: trace_of zip, Ok PyNone)
  else if olefile_isOleFile L b then
    (fs_of ole,
     before ++ CallIsZipfile fp :: CallIsOleFile fp :: trace_of ole, Ok PyNone)
  else if bool_decide (firstn 4 b = zip_magic) then
    (fs_of zip,
     before ++ CallIsZipfile fp :: CallIsOleFile fp
       :: Log WARNING (Unsupported fp) :: CallReadHeader fp 4
       :: Log INFO DetectedZipHeader :: trace_of zip, Ok PyNone)
  else
    (fs1,
     before ++ [CallIsZipfile fp; CallIsOleFile fp;
                Log WARNING (Unsupported fp); CallReadHeader fp 4;
                Log ERROR (CouldNotIdentify fp)], Ok PyNone).
Proof.
  intros Hmk. cbv zeta.
  destruct (extract_zip_returns L (arg_filepath args) (Readable b)
              (arg_output args) (arg_list args) fs1) as [bz Hz].
  destruct (extract_ole_returns L (arg_filepath args) (Readable b)
              (arg_output args) (arg_list args) fs1) as [bo Ho].
  unfold main, main_prefix, path_exists, mkdir, is_zipfile, isOleFile, read_header.
  unfold fs_of, trace_of, value_of in *.
  destruct (extract_zip L _ _ _ _ fs1) as [[fz tz] rz] eqn:Ez.
  destruct (extract_ole L _ _ _ _ fs1) as [[fo to] ro] eqn:Eo.
  simpl in Hz, Ho. subst rz ro.
  unfold bind, try_except, logging, emit, ret, of_result.
  destruct (arg_verbose args); simpl; rewrite Hmk; simpl;
    (destruct (zipfile_is_zipfile L b); simpl;
     [rewrite Ez; simpl; rewrite ?app_nil_r; reflexivity|]);
    (destruct (olefile_isOleFile L b); simpl;
     [rewrite Eo; simpl; rewrite ?app_nil_r; reflexivity|]);
    (destruct (bool_decide (firstn 4 b = zip_magic)); simpl;
     [rewrite Ez; simpl; rewrite ?app_nil_r; reflexivity | reflexivity]).
Qed.

(** ** 9. Sequences of writes *)

Lemma apply_writes_lookup W (m : gmap string bytes) p :
  apply_writes W m !! p = m !! p \/ exists d, In (p, d) W.
Proof.
  revert m. induction W as [|[k v] W IH]; intros m; simpl.
  - now left.
  - destruct (IH (<[k := v]> m)) as [H | [d H]].
    + destruct (decide (k = p)) as [-> | Hne].
      * right. exists v. now left.
      * left. unfold apply_writes in *. simpl. rewrite H.
        now apply lookup_insert_ne.
    + right. exists d. now right.
Qed.





(** ** 10. What the traces contain *)

Lemma log_of_app t1 t2 : log_of (t1 ++ t2) = log_of t1 ++ log_of t2.
Proof.
  induction t1 as [|ev t1 IH]; simpl; [reflexivity|].
  destruct ev; simpl; now rewrite IH.
Qed.



Lemma log_of_flat_map {A} (f : A -> list Event) l :
  log_of (flat_map f l) = flat_map (fun x => log_of (f x)) l.
Proof.
  induction l as [|x l IH]; simpl; [reflexivity|].
  now rewrite log_of_app, IH.
Qed.



Lemma probes_app t1 t2 : probes (t1 ++ t2) = probes t1 ++ probes t2.
Proof. apply List.filter_app. Qed.

Lemma probes_flat_map_nil {A} (f : A -> list Event) l :
  (forall x, probes (f x) = []) -> probes (flat_map f l) = [].
Proof.
  intros H. induction l as [|x l IH]; simpl; [reflexivity|].
  now rewrite probes_app, H, IH.
Qed.


Lemma ole_stream_events_log L fs ole od lo stream :
  log_of (ole_stream_events L fs ole od lo stream) =
  ole_stream_log L fs ole od lo stream.
Proof.
  unfold ole_stream_events, ole_stream_log, ole_stream_error.
  destruct stream as [|c stream]; [reflexivity|]. simpl.
  destruct (openstream_read ole _) as [d | e]; simpl; [|reflexivity].
  destruct lo; simpl; [reflexivity|].
  destruct (open_error fs _); simpl; [reflexivity|].
  destruct (write_error fs _ d); reflexivity.
Qed.

Lemma zip_entry_events_probes L fs od lo zi :
  probes (zip_entry_events L fs od lo zi) = [].
Proof.
  unfold zip_entry_events.
  destruct lo; simpl; [reflexivity|].
  destruct (zi_source zi) as [[d | e] | e]; simpl;
    try destruct (open_error fs _); simpl;
    try destruct (write_error fs _ d); reflexivity.
Qed.

Lemma ole_stream_events_probes L fs ole od lo stream :
  probes (ole_stream_events L fs ole od lo stream) = [].
Proof.
  unfold ole_stream_events.
  destruct stream as [|c stream]; [reflexivity|]. simpl.
  destruct (openstream_read ole _) as [d | e]; simpl; [|reflexivity].
  destruct lo; simpl; [reflexivity|].
  destruct (open_error fs _); simpl; [reflexivity|].
  destruct (write_error fs _ d); reflexivity.
Qed.

(** Going through the events of a short trace. *)
Ltac in_cases H :=
  repeat (destruct H as [H | H]; [try discriminate|]);
  try (exfalso; exact H).



Lemma zip_entry_writes_spec fs od lo zi k d :
  In (k, d) (zip_entry_writes fs od lo zi) ->
  k = resolve fs (zip_output_path od (filename zi)) /\
  open_error fs (zip_output_path od (filename zi)) = None.
Proof.
  unfold zip_entry_writes.
  destruct lo; simpl; [intros []|].
  destruct (zi_source zi) as [[d' | e] | e]; simpl;
    try destruct (open_error fs _) eqn:E; simpl; intros H; in_cases H;
    injection H as <- <-; auto.
Qed.


Lemma ole_stream_events_write L fs ole od lo stream p d :
  In (CallWrite p d) (ole_stream_events L fs ole od lo stream) ->
  lo = false /\ p = ole_output_path od stream /\ open_error fs p = None /\
  stream <> [] /\ openstream_read ole (PyStr.join "/" stream) = Ok d.
Proof.
  unfold ole_stream_events.
  destruct stream as [|c stream]; [intros []|]. simpl.
  destruct (openstream_read ole _) as [d' | e] eqn:Er; simpl;
    [destruct lo; simpl;
     [|destruct (open_error fs _) eqn:E; simpl;
       [|destruct (write_error fs _ d'); simpl]]|];
    intros H; in_cases H;
    injection H as <- <-; repeat split; try assumption; try reflexivity;
    discriminate.
Qed.

Lemma ole_stream_writes_spec fs ole od lo stream k d :
  In (k, d) (ole_stream_writes fs ole od lo stream) ->
  k = resolve fs (ole_output_path od stream) /\
  open_error fs (ole_output_path od stream) = None.
Proof.
  unfold ole_stream_writes.
  destruct stream as [|c stream]; [intros []|]. simpl.
  destruct (openstream_read ole _) as [d' | e]; simpl; [|intros []].
  destruct lo; simpl; [intros []|].
  destruct (open_error fs _) eqn:E; simpl; [intros []|].
  intros [H | [H | []]]; injection H as <- <-; auto.
Qed.

(** Where the destinations lie. *)
Lemma zip_output_path_prefix od name :
  zip_output_path od name = dir_prefix od +:+ OsPath.basename name.
Proof. apply join_relative, basename_no_sep. Qed.

Lemma ole_safe_filename stream :
  OsPath.basename (PyStr.replace (PyStr.join "/" stream) "/" "_") =
  PyStr.replace (PyStr.join "/" stream) "/" "_".
Proof. apply basename_id, replace_no_old. discriminate. Qed.

Lemma ole_output_path_prefix od stream :
  ole_output_path od stream =
  dir_prefix od +:+ PyStr.replace (PyStr.join "/" stream) "/" "_".
Proof.
  unfold ole_output_path. rewrite ole_safe_filename.
  apply join_relative, replace_no_old. discriminate.
Qed.




(** ** 11. Destinations (C1) *)

Lemma targets_app t1 t2 : targets (t1 ++ t2) = targets t1 ++ targets t2.
Proof.
  induction t1 as [|ev t1 IH]; simpl; [reflexivity|].
  destruct ev; simpl; now rewrite IH.
Qed.






(** A changed path leads to a file some write of the run went to. *)
Lemma put_files_changed fs W q :
  files (put_files fs W) !! q <> files fs !! q ->
  exists d, In (resolve fs q, d) W.
Proof.
  rewrite !files_lookup.
  change (resolve (put_files fs W) q) with (resolve fs q).
  change (store (put_files fs W)) with (apply_writes W (store fs)).
  intros Hq.
  destruct (apply_writes_lookup W (store fs) (resolve fs q)) as [H | H];
    [congruence | exact H].
Qed.







(** A member named [x/..] has the final segment [..]: its destination is
    [out/..], which names a directory; the open is refused, nothing is
    written and the file system is as before. *)
Example dotdot_is_refused :
  extract_zip_entry Sample.libs "out" false Sample.dotdot Sample.fs0 =
  (Sample.fs0,
   [Log INFO (FoundFile "x/.." 1 "application/octet-stream");
    CallZipOpen "x/.."; CallOpenWb "out/..";
    Log ERROR (ErrorExtracting "x/.." "Is a directory")],
   Ok tt).
Proof. rewrite zip_entry_run, <- (put_files_nil Sample.fs0) at 1. reflexivity. Qed.

(** The guarantee is about the path that is opened.  When that path is a
    link that was already in the output directory, the bytes land in the
    file the link leads to: here [out/readme.txt] leads to [/srv/notes],
    and extracting [readme.txt] replaces the content of that file. *)
Example link_is_followed :
  let run := extract_zip_entry Sample.libs "out" false Sample.readme
               MoreSamples.fs_linked in
  targets (trace_of run) = ["out/readme.txt"] /\
  files MoreSamples.fs_linked !! "/srv/notes" = Some [x6f; x6c; x64]%byte /\
  files (fs_of run) !! "/srv/notes" = Some [x68; x69]%byte /\
  files (fs_of run) !! "out/readme.txt" = Some [x68; x69]%byte.
Proof.
  cbv zeta. rewrite zip_entry_run. unfold trace_of, fs_of. cbn [fst snd].
  rewrite !files_lookup. repeat split; vm_compute; reflexivity.
Qed.

(** ** 12. Entry failures and listings (C4, C6) *)


Lemma ole_run_log L fp inp od lo fs ole streams :
  ole_open_result L inp = OleOpened ole streams ->
  value_of (extract_ole L fp inp od lo fs) = Ok true /\
  log_of (trace_of (extract_ole L fp inp od lo fs)) =
  (INFO, ProcessingOle fp) :: flat_map (ole_stream_log L fs ole od lo) streams.
Proof.
  intros Ho. rewrite extract_ole_run, Ho. unfold value_of, trace_of. simpl.
  split; [reflexivity|]. f_equal.
  rewrite log_of_app, log_of_flat_map. simpl. rewrite app_nil_r.
  apply flat_map_ext. intros s. apply ole_stream_events_log.
Qed.






Lemma put_files_elsewhere fs W q :
  (forall d, ~ In (resolve fs q, d) W) ->
  files (put_files fs W) !! q = files fs !! q.
Proof.
  intros Hq. destruct (decide (files (put_files fs W) !! q = files fs !! q))
    as [H | H]; [exact H|].
  apply put_files_changed in H as [d H]. now apply Hq in H.
Qed.

(** One member, and one stream, changes nothing but the file its
    destination leads to. *)
Lemma zip_entry_elsewhere L od lo zi fs q :
  resolve fs q <> resolve fs (zip_output_path od (filename zi)) ->
  files (fs_of (extract_zip_entry L od lo zi fs)) !! q = files fs !! q.
Proof.
  intros Hq. rewrite zip_entry_run. unfold fs_of. cbn [fst].
  apply put_files_elsewhere. intros d H.
  now apply zip_entry_writes_spec in H as [H _].
Qed.

Lemma ole_stream_elsewhere L ole od lo s fs q :
  resolve fs q <> resolve fs (ole_output_path od s) ->
  files (fs_of (extract_ole_stream L ole od lo s fs)) !! q = files fs !! q.
Proof.
  intros Hq. rewrite ole_stream_run. unfold fs_of. cbn [fst].
  apply put_files_elsewhere. intros d H.
  now apply ole_stream_writes_spec in H as [H _].
Qed.













Lemma extract_ole_list_fs L fp inp od fs :
  fs_of (extract_ole L fp inp od true fs) = fs.
Proof.
  rewrite extract_ole_run. unfold fs_of.
  destruct (ole_open_result L inp) as [e | | e | e | ole streams];
    try reflexivity.
  cbn [fst]. replace (flat_map (ole_stream_writes fs ole od true) streams)
    with (@nil (string * bytes)); [apply put_files_nil|].
  induction streams as [|s streams IH]; simpl; [reflexivity|].
  rewrite <- IH. unfold ole_stream_writes.
  destruct s as [|c s]; [reflexivity|].
  now destruct (openstream_read ole _).
Qed.







(** ** 13. Streams of a compound file (C10, C5) *)











(** ** 14. Content and repetition (C7, C8) *)
























(** ** 15. Directory placeholders (C9) *)





(** ** 16. Detection and the value of a run (C2, C3) *)

Lemma probes_extract_zip L fp inp od lo fs :
  probes (trace_of (extract_zip L fp inp od lo fs)) = [].
Proof.
  rewrite extract_zip_run. unfold trace_of.
  destruct (zip_open_result L inp) as [infos | [m | m]]; try reflexivity.
  cbn [fst snd]. change (?a :: ?b :: ?t) with ([a; b] ++ t).
  rewrite probes_app. apply probes_flat_map_nil.
  intros zi. apply zip_entry_events_probes.
Qed.

Lemma probes_extract_ole L fp inp od lo fs :
  probes (trace_of (extract_ole L fp inp od lo fs)) = [CallIsOleFile fp].
Proof.
  rewrite extract_ole_run. unfold trace_of.
  destruct (ole_open_result L inp) as [e | | e | e | ole streams];
    try reflexivity.
  cbn [fst snd]. change (?a :: ?b :: ?c :: ?d :: ?t) with ([a; b; c; d] ++ t).
  rewrite !probes_app, probes_flat_map_nil; [reflexivity|].
  intros s. apply ole_stream_events_probes.
Qed.

Lemma probes_main_prefix args : probes (main_prefix args) = [].
Proof. unfold main_prefix. now destruct (arg_verbose args). Qed.

Lemma probe_in_trace t ev :
  In ev t -> is_probe ev = true -> In ev (probes t).
Proof. intros Hin Hp. apply List.filter_In. now split. Qed.

(** The header of the file is read only after both checks said no. *)
Lemma read_header_after_checks L args inp fs p n :
  In (CallReadHeader p n) (trace_of (main L args inp fs)) ->
  exists b,
    inp = Readable b /\ zipfile_is_zipfile L b = false /\
    olefile_isOleFile L b = false /\ p = arg_filepath args /\ n = 4.
Proof.
  destruct inp as [| e | e | b].
  - unfold main, path_exists, bind, logging, emit, ret, trace_of.
    destruct (arg_verbose args); simpl; intros H; in_cases H.
  - unfold main, path_exists, bind, logging, emit, ret, raise, trace_of.
    destruct (arg_verbose args); simpl; intros H; in_cases H.
  - unfold main, path_exists, mkdir, is_zipfile, isOleFile, trace_of.
    unfold bind, logging, emit, ret, of_result, raise.
    destruct (arg_verbose args); simpl;
      destruct (os_mkdir fs (arg_output args)); simpl; intros H; in_cases H.
  - destruct (os_mkdir fs (arg_output args)) as [fs1 | e] eqn:Hmk.
    + rewrite (main_run_readable L args b fs fs1 Hmk). cbv zeta.
      assert (Hbefore : ~ In (CallReadHeader p n) (main_prefix args)).
      { unfold main_prefix. destruct (arg_verbose args); simpl;
          intros H; in_cases H. }
      assert (Hzip : ~ In (CallReadHeader p n)
                       (trace_of (extract_zip L (arg_filepath args) (Readable b)
                                    (arg_output args) (arg_list args) fs1))).
      { intros H. apply probe_in_trace in H; [|reflexivity].
        now rewrite probes_extract_zip in H. }
      assert (Hole : ~ In (CallReadHeader p n)
                       (trace_of (extract_ole L (arg_filepath args) (Readable b)
                                    (arg_output args) (arg_list args) fs1))).
      { intros H. apply probe_in_trace in H; [|reflexivity].
        rewrite probes_extract_ole in H. in_cases H. }
      destruct (zipfile_is_zipfile L b) eqn:Hz.
      { unfold trace_of at 1. cbn [fst snd]. intros H.
        apply in_app_or in H as [H | H]; [now apply Hbefore in H|].
        destruct H as [H | H]; [discriminate | now apply Hzip in H]. }
      destruct (olefile_isOleFile L b) eqn:Ho.
      { unfold trace_of at 1. cbn [fst snd]. intros H.
        apply in_app_or in H as [H | H]; [now apply Hbefore in H|].
        destruct H as [H | [H | H]]; try discriminate. now apply Hole in H. }
      intros H.
      assert (Heq : CallReadHeader (arg_filepath args) 4 = CallReadHeader p n).
      { destruct (bool_decide (firstn 4 b = zip_magic));
          unfold trace_of in H; cbn [fst snd] in H;
          apply in_app_or in H as [H | H]; try (now apply Hbefore in H).
        - destruct H as [H | [H | [H | [H | [H | H]]]]]; try discriminate;
            [exact H | now apply Hzip in H].
        - in_cases H. exact H. }
      injection Heq as <- <-. exists b. repeat split; assumption.
    + unfold main, path_exists, mkdir, trace_of.
      unfold bind, logging, emit, ret.
      destruct (arg_verbose args); simpl; rewrite Hmk; simpl;
        intros H; in_cases H.
Qed.

(** C2. [main] is a function of its input, and it tries the three probes
    in one order.  The first four bytes are read only when both
    [zipfile.is_zipfile] and [olefile.isOleFile] have said no.  For a
    readable input whose output directory can be made: when
    [zipfile.is_zipfile] accepts the file the run is the run of
    [extract_zip], whatever the other two probes would say; otherwise
    when [olefile.isOleFile] accepts it the run is the run of
    [extract_ole]; otherwise the four bytes are compared with the ZIP
    signature and the run is the run of [extract_zip] or ends with the
    error record.  The probes made, in order, are accordingly the ZIP
    check alone, the ZIP check and the OLE check (which [extract_ole]
    repeats), or all three. *)
Theorem C2_detection_order L args inp fs :
  (forall p n,
     In (CallReadHeader p n) (trace_of (main L args inp fs)) ->
     exists b,
       inp = Readable b /\ zipfile_is_zipfile L b = false /\
       olefile_isOleFile L b = false /\ p = arg_filepath args /\ n = 4) /\
  (forall b fs1,
     inp = Readable b ->
     os_mkdir fs (arg_output args) = Ok fs1 ->
     let fp := arg_filepath args in
     let od := arg_output args in
     let lo := arg_list args in
     let zip := extract_zip L fp inp od lo fs1 in
     let ole := extract_ole L fp inp od lo fs1 in
     let before := main_prefix args in
     main L args inp fs =
       (if zipfile_is_zipfile L b then
          (fs_of zip, before ++ CallIsZipfile fp :: trace_of zip, Ok PyNone)
        else if olefile_isOleFile L b then
          (fs_of ole,
           before ++ CallIsZipfile fp :: CallIsOleFile fp :: trace_of ole,
           Ok PyNone)
        else if bool_decide (firstn 4 b = zip_magic) then
          (fs_of zip,
           before ++ CallIsZipfile fp :: CallIsOleFile fp
             :: Log WARNING (Unsupported fp) :: CallReadHeader fp 4
             :: Log INFO DetectedZipHeader :: trace_of zip, Ok PyNone)
        else
          (fs1,
           before ++ [CallIsZipfile fp; CallIsOleFile fp;
                      Log WARNING (Unsupported fp); CallReadHeader fp 4;
                      Log ERROR (CouldNotIdentify fp)], Ok PyNone)) /\
     probes (trace_of (main L args inp fs)) =
       (if zipfile_is_zipfile L b then [CallIsZipfile fp]
        else if olefile_isOleFile L b then
          [CallIsZipfile fp; CallIsOleFile fp; CallIsOleFile fp]
        else [CallIsZipfile fp; CallIsOleFile fp; CallReadHeader fp 4])).
Proof.
  split; [intros p n; apply read_header_after_checks|].
  intros b fs1 -> Hmk. cbv zeta.
  pose proof (main_run_readable L args b fs fs1 Hmk) as Hrun. cbv zeta in Hrun.
  split; [exact Hrun|]. rewrite Hrun.
  destruct (zipfile_is_zipfile L b).
  - unfold trace_of at 1. cbn [fst snd].
    rewrite probes_app, probes_main_prefix.
    change (?a :: ?t) with ([a] ++ t). rewrite probes_app, probes_extract_zip.
    reflexivity.
  - destruct (olefile_isOleFile L b).
    + unfold trace_of at 1. cbn [fst snd].
      rewrite probes_app, probes_main_prefix.
      change (?a :: ?c :: ?t) with ([a; c] ++ t).
      rewrite probes_app, probes_extract_ole. reflexivity.
    + destruct (bool_decide (firstn 4 b = zip_magic)).
      * unfold trace_of at 1. cbn [fst snd].
        rewrite probes_app, probes_main_prefix.
        change (?a :: ?c :: ?d :: ?e :: ?f :: ?t) with ([a; c; d; e; f] ++ t).
        rewrite probes_app, probes_extract_zip. reflexivity.
      * unfold trace_of. cbn [fst snd].
        rewrite probes_app, probes_main_prefix. reflexivity.
Qed.

(** A file that both checks accept is treated as an archive: the sample
    libraries accept [PK] at the start, and the OLE check is never made. *)
Lemma C2_detection_order_witness :
  probes (trace_of (main Sample.libs Sample.args_list Sample.zip_file Sample.fs0))
  = [CallIsZipfile "input.bin"].
Proof.
  destruct (C2_detection_order Sample.libs Sample.args_list Sample.zip_file
              Sample.fs0) as [_ H].
  destruct (H [x50; x4b; x03; x04]%byte (set_dirs Sample.fs0 ({["out"]} ∪ ∅))
              eq_refl eq_refl) as [_ Hp].
  exact Hp.
Defined.


Lemma main_value L args inp fs :
  value_of (main L args inp fs) = Ok PyNone \/
  exists e, value_of (main L args inp fs) = Raise e.
Proof.
  destruct inp as [| e | e | b].
  - left. unfold main, path_exists, bind, logging, emit, ret, value_of.
    now destruct (arg_verbose args).
  - right. exists e.
    unfold main, path_exists, bind, logging, emit, ret, raise, value_of.
    now destruct (arg_verbose args).
  - unfold main, path_exists, mkdir, is_zipfile, isOleFile, value_of.
    unfold bind, logging, emit, ret, of_result, raise.
    destruct (arg_verbose args); simpl;
      destruct (os_mkdir fs (arg_output args)); simpl; eauto.
  - destruct (os_mkdir fs (arg_output args)) as [fs1 | e] eqn:Hmk.
    + left. rewrite (main_run_readable L args b fs fs1 Hmk). cbv zeta.
      destruct (zipfile_is_zipfile L b); [reflexivity|].
      destruct (olefile_isOleFile L b); [reflexivity|].
      destruct (bool_decide (firstn 4 b = zip_magic)); reflexivity.
    + right. exists e.
      unfold main, path_exists, mkdir, value_of.
      unfold bind, logging, emit, ret.
      destruct (arg_verbose args); simpl; rewrite Hmk; reflexivity.
Qed.



(** ** 17. The driver outside the detection cascade *)

Lemma main_missing_run L args fs :
  main L args Missing fs =
  (fs,
   (if arg_verbose args then [Log DEBUG VerboseEnabled] else [])
   ++ [CallExists (arg_filepath args);
       Log ERROR (FileNotFound (arg_filepath args))],
   Ok PyNone).
Proof.
  unfold main, path_exists, bind, logging, emit, ret.
  now destruct (arg_verbose args).
Qed.

Lemma main_inaccessible_run L args e fs :
  main L args (Inaccessible e) fs =
  (fs,
   (if arg_verbose args then [Log DEBUG VerboseEnabled] else [])
   ++ [CallExists (arg_filepath args)],
   Raise e).
Proof.
  unfold main, path_exists, bind, logging, emit, ret, raise.
  now destruct (arg_verbose args).
Qed.

(** X1. When [Path(filepath).exists()] answers [False], the error is
    logged and [main] returns [None] at once; the output directory is
    not made, no probe and no library call is made on the file, and the
    file system is as before.  When the call raises instead (the path
    cannot be examined), nothing catches the exception: [main] raises it
    with no error record logged, and again nothing is made or probed. *)
Theorem main_missing_file L args fs :
  (let run := main L args Missing fs in
   fs_of run = fs /\
   value_of run = Ok PyNone /\
   In (Log ERROR (FileNotFound (arg_filepath args))) (trace_of run) /\
   probes (trace_of run) = [] /\
   (forall d, ~ In (CallMkdir d) (trace_of run)) /\
   (forall p, ~ In (CallZipFile p) (trace_of run)) /\
   (forall p, ~ In (CallOleFileIO p) (trace_of run))) /\
  (forall e,
     let run := main L args (Inaccessible e) fs in
     fs_of run = fs /\
     value_of run = Raise e /\
     (forall m, ~ In (Log ERROR m) (trace_of run)) /\
     probes (trace_of run) = [] /\
     (forall d, ~ In (CallMkdir d) (trace_of run))).
Proof.
  split.
  - cbv zeta. rewrite main_missing_run. unfold fs_of, value_of, trace_of.
    cbn [fst snd].
    destruct (arg_verbose args); simpl;
      (split; [reflexivity|]; split; [reflexivity|]; split; [tauto|];
       split; [reflexivity|]; split; [|split]; intros x H; in_cases H).
  - intros e. cbv zeta. rewrite main_inaccessible_run.
    unfold fs_of, value_of, trace_of. cbn [fst snd].
    destruct (arg_verbose args); simpl;
      (split; [reflexivity|]; split; [reflexivity|]; split;
       [|split; [reflexivity|]]; intros x H; in_cases H).
Qed.

Lemma main_mkdir_fails L args inp fs e :
  present inp = true ->
  os_mkdir fs (arg_output args) = Raise e ->
  main L args inp fs = (fs, main_prefix args, Raise e).
Proof.
  intros Hin Hmk.
  unfold main, main_prefix, path_exists, mkdir, bind, logging, emit, ret.
  destruct inp; try discriminate;
    destruct (arg_verbose args); simpl; rewrite Hmk; reflexivity.
Qed.

Lemma main_unreadable L args e fs fs1 :
  os_mkdir fs (arg_output args) = Ok fs1 ->
  main L args (Unreadable e) fs =
  (fs1,
   main_prefix args
   ++ [CallIsZipfile (arg_filepath args); CallIsOleFile (arg_filepath args)],
   Raise e).
Proof.
  intros Hmk.
  unfold main, main_prefix, path_exists, mkdir, is_zipfile, isOleFile.
  unfold bind, logging, emit, ret, of_result, raise.
  destruct (arg_verbose args); simpl; rewrite Hmk; reflexivity.
Qed.

(** X2. The exceptions [main] lets through.  [main] raises exactly in
    three cases: [Path.exists] itself raises, and the run stops there,
    before the output directory is made and before any probe; the path
    exists and the output directory cannot be made; or the directory is
    made but the file cannot be opened for reading: the ZIP check
    swallows that error, the OLE check on line 119 does not and nothing
    catches it.  In the last case the run stops after the two checks: no
    header is read and nothing is extracted. *)
Theorem main_raises_iff L args inp fs e :
  (value_of (main L args inp fs) = Raise e <->
   inp = Inaccessible e \/
   (present inp = true /\
    (os_mkdir fs (arg_output args) = Raise e \/
     (exists fs1, os_mkdir fs (arg_output args) = Ok fs1) /\
     inp = Unreadable e))) /\
  main L args (Inaccessible e) fs =
    (fs,
     (if arg_verbose args then [Log DEBUG VerboseEnabled] else [])
     ++ [CallExists (arg_filepath args)],
     Raise e) /\
  (forall fs1,
     os_mkdir fs (arg_output args) = Ok fs1 ->
     main L args (Unreadable e) fs =
     (fs1,
      main_prefix args
      ++ [CallIsZipfile (arg_filepath args); CallIsOleFile (arg_filepath args)],
      Raise e)).
Proof.
  split; [|split; [apply main_inaccessible_run
                  |intros fs1; apply main_unreadable]].
  split.
  - intros Hv. destruct inp as [| e' | e' | b].
    + rewrite main_missing_run in Hv. discriminate.
    + rewrite main_inaccessible_run in Hv.
      unfold value_of in Hv. cbn [snd] in Hv. injection Hv as ->. now left.
    + right. split; [reflexivity|].
      destruct (os_mkdir fs (arg_output args)) as [fs1 | e''] eqn:Hmk.
      * rewrite (main_unreadable L args e' fs fs1 Hmk) in Hv.
        unfold value_of in Hv. cbn [snd] in Hv. injection Hv as ->.
        right. split; [now exists fs1 | reflexivity].
      * rewrite (main_mkdir_fails L args (Unreadable e') fs e''
                   eq_refl Hmk) in Hv.
        unfold value_of in Hv. cbn [snd] in Hv. injection Hv as ->. now left.
    + right. split; [reflexivity|].
      destruct (os_mkdir fs (arg_output args)) as [fs1 | e''] eqn:Hmk.
      * exfalso. destruct (main_value L args (Readable b) fs) as [H | [e0 H]].
        -- congruence.
        -- rewrite (main_run_readable L args b fs fs1 Hmk) in H. cbv zeta in H.
           destruct (zipfile_is_zipfile L b); [discriminate|].
           destruct (olefile_isOleFile L b); [discriminate|].
           destruct (bool_decide (firstn 4 b = zip_magic)); discriminate.
      * rewrite (main_mkdir_fails L args (Readable b) fs e''
                   eq_refl Hmk) in Hv.
        unfold value_of in Hv. cbn [snd] in Hv. injection Hv as ->. now left.
  - intros [-> | [Hin [Hmk | [[fs1 Hmk] ->]]]].
    + now rewrite main_inaccessible_run.
    + now rewrite (main_mkdir_fails L args inp fs e Hin Hmk).
    + now rewrite (main_unreadable L args e fs fs1 Hmk).
Qed.

(** An existing file that cannot be read makes [main] raise, and so does
    a path that cannot be examined. *)
Lemma main_raises_witness :
  value_of (main Sample.libs Sample.args_extract MoreSamples.locked Sample.fs0)
  = Raise (OtherError "Permission denied") /\
  value_of (main Sample.libs Sample.args_extract MoreSamples.too_long Sample.fs0)
  = Raise (OtherError "File name too long").
Proof.
  split.
  - destruct (main_raises_iff Sample.libs Sample.args_extract MoreSamples.locked
                Sample.fs0 (OtherError "Permission denied")) as [[_ H] _].
    apply H. right. split; [reflexivity|]. right. split; [|reflexivity].
    eexists. reflexivity.
  - destruct (main_raises_iff Sample.libs Sample.args_extract
                MoreSamples.too_long Sample.fs0
                (OtherError "File name too long")) as [[_ H] _].
    apply H. now left.
Defined.

(** X3. A readable file that neither check accepts and that is shorter
    than four bytes is never taken for an archive by the fallback: the
    bytes read cannot equal the four-byte signature, so the run ends with
    the error record, returns [None] and has only made the directory. *)
Theorem main_short_file_unsupported L args b fs fs1 :
  os_mkdir fs (arg_output args) = Ok fs1 ->
  zipfile_is_zipfile L b = false ->
  olefile_isOleFile L b = false ->
  length b < 4 ->
  main L args (Readable b) fs =
  (fs1,
   main_prefix args
   ++ [CallIsZipfile (arg_filepath args); CallIsOleFile (arg_filepath args);
       Log WARNING (Unsupported (arg_filepath args));
       CallReadHeader (arg_filepath args) 4;
       Log ERROR (CouldNotIdentify (arg_filepath args))],
   Ok PyNone).
Proof.
  intros Hmk Hz Ho Hlen.
  rewrite (main_run_readable L args b fs fs1 Hmk). cbv zeta.
  rewrite Hz, Ho, bool_decide_eq_false_2; [reflexivity|].
  intros Heq. apply (f_equal (@length byte)) in Heq.
  rewrite length_take in Heq. unfold zip_magic in Heq. cbn [length] in Heq. lia.
Qed.

Lemma main_short_file_witness :
  value_of (main Sample.libs Sample.args_extract Sample.two_bytes Sample.fs0)
  = Ok PyNone.
Proof.
  unfold Sample.two_bytes.
  rewrite (main_short_file_unsupported Sample.libs Sample.args_extract
             [x00; x01]%byte Sample.fs0 (set_dirs Sample.fs0 ({["out"]} ∪ ∅))
             eq_refl eq_refl eq_refl); [reflexivity|].
  simpl. lia.
Defined.

Lemma bind_emit {A} ev (k : M A) fs :
  bind (emit ev) (fun _ => k) fs =
  (fs_of (k fs), ev :: trace_of (k fs), value_of (k fs)).
Proof.
  unfold bind, emit, fs_of, trace_of, value_of.
  destruct (k fs) as [[fs2 t2] r2]. reflexivity.
Qed.

Lemma bind_ret_tt {A} (k : M A) fs : bind (ret tt) (fun _ => k) fs = k fs.
Proof.
  unfold bind, ret. destruct (k fs) as [[fs2 t2] r2]. reflexivity.
Qed.

(** X4. [--verbose] adds the debug record in front and changes nothing
    else: the file system, the rest of the trace and the value are those
    of the same run without the flag. *)
Theorem main_verbose_only_adds_a_record L fp od lo inp fs :
  main L (mkArgs fp od lo true) inp fs =
  (fs_of (main L (mkArgs fp od lo false) inp fs),
   Log DEBUG VerboseEnabled :: trace_of (main L (mkArgs fp od lo false) inp fs),
   value_of (main L (mkArgs fp od lo false) inp fs)).
Proof.
  unfold main. cbn [arg_verbose arg_filepath arg_output arg_list].
  unfold logging at 1. rewrite bind_emit. now rewrite !bind_ret_tt.
Qed.

(** ** 18. What extraction keeps and what it may destroy *)

Lemma apply_writes_keeps W (m : gmap string bytes) p :
  is_Some (m !! p) -> is_Some (apply_writes W m !! p).
Proof.
  revert m. induction W as [|[k v] W IH]; intros m Hp; [exact Hp|].
  unfold apply_writes in *. simpl. apply IH.
  destruct (decide (k = p)) as [-> | Hne].
  - rewrite lookup_insert_eq. eauto.
  - now rewrite lookup_insert_ne.
Qed.

Lemma zip_entry_events_no_mkdir L fs od lo zi d :
  ~ In (CallMkdir d) (zip_entry_events L fs od lo zi).
Proof.
  unfold zip_entry_events.
  destruct lo; simpl; [intros H; in_cases H|].
  destruct (zi_source zi) as [[d' | e] | e]; simpl;
    try destruct (open_error fs _); simpl;
    try destruct (write_error fs _ d'); simpl; intros H; in_cases H.
Qed.

Lemma ole_stream_events_no_mkdir L fs ole od lo s d :
  ~ In (CallMkdir d) (ole_stream_events L fs ole od lo s).
Proof.
  unfold ole_stream_events.
  destruct s as [|c s]; [intros []|]. simpl.
  destruct (openstream_read ole _) as [d' | e]; simpl;
    [destruct lo; simpl;
     [|destruct (open_error fs _); simpl;
       [|destruct (write_error fs _ d'); simpl]]|];
    intros H; in_cases H.
Qed.

(** X5. Extraction only creates or overwrites regular files: after a run
    of either extractor the directories and the refusals of the file
    system are the same, every file that existed still exists, and no
    directory was made on the way -- the output is flat. *)
Theorem extraction_only_adds_files L fp inp od lo fs :
  let zip := extract_zip L fp inp od lo fs in
  let ole := extract_ole L fp inp od lo fs in
  (dirs (fs_of zip) = dirs fs /\ denied (fs_of zip) = denied fs /\
   (forall p, is_Some (files fs !! p) -> is_Some (files (fs_of zip) !! p)) /\
   (forall d, ~ In (CallMkdir d) (trace_of zip))) /\
  (dirs (fs_of ole) = dirs fs /\ denied (fs_of ole) = denied fs /\
   (forall p, is_Some (files fs !! p) -> is_Some (files (fs_of ole) !! p)) /\
   (forall d, ~ In (CallMkdir d) (trace_of ole))).
Proof.
  cbv zeta. rewrite extract_zip_run, extract_ole_run. split.
  - destruct (zip_open_result L inp) as [infos | [m | m]];
      unfold fs_of, trace_of; cbn [fst snd];
      try (repeat split; [tauto | intros d H; in_cases H]).
    repeat split.
    + intros p. rewrite !files_lookup. apply apply_writes_keeps.
    + intros d [H | [H | H]]; try discriminate.
      apply in_flat_map in H as (zi & _ & H).
      now apply zip_entry_events_no_mkdir in H.
  - destruct (ole_open_result L inp) as [e | | e | e | ole streams];
      unfold fs_of, trace_of; cbn [fst snd];
      try (repeat split; [tauto | intros d H; in_cases H]).
    repeat split.
    + intros p. rewrite !files_lookup. apply apply_writes_keeps.
    + intros d [H | [H | [H | [H | H]]]]; try discriminate.
      apply in_app_or in H as [H | H]; [|in_cases H].
      apply in_flat_map in H as (s & _ & H).
      now apply ole_stream_events_no_mkdir in H.
Qed.

(** The file that was in [out] before the sample archive is extracted
    is still there afterwards. *)
Lemma extraction_only_adds_files_witness :
  is_Some (files (fs_of (extract_zip Sample.libs "input.bin" Sample.zip_file
                           "out" false Sample.fs_old)) !! "out/readme.txt").
Proof.
  destruct (extraction_only_adds_files Sample.libs "input.bin" Sample.zip_file
              "out" false Sample.fs_old) as [(_ & _ & H & _) _].
  apply H. vm_compute. eauto.
Defined.



(** ** 19. Opening the container *)

(** X7. When the archive cannot be opened [extract_zip] touches nothing
    and returns [False]; the record it logs tells a [BadZipFile] (the
    file is not a valid archive) from any other exception, whose text it
    reports.  A path that does not exist falls in the second class. *)
Theorem extract_zip_open_failure L fp inp od lo fs :
  (forall m,
     zip_open_result L inp = Raise (BadZipFile m) ->
     extract_zip L fp inp od lo fs =
     (fs, [CallZipFile fp; Log ERROR (NotValidZip fp)], Ok false)) /\
  (forall m,
     zip_open_result L inp = Raise (OtherError m) ->
     extract_zip L fp inp od lo fs =
     (fs, [CallZipFile fp; Log ERROR (ErrorProcessing fp m)], Ok false)) /\
  extract_zip L fp Missing od lo fs =
    (fs, [CallZipFile fp;
          Log ERROR (ErrorProcessing fp "No such file or directory")],
     Ok false).
Proof.
  split; [|split].
  - intros m H. now rewrite extract_zip_run, H.
  - intros m H. now rewrite extract_zip_run, H.
  - now rewrite extract_zip_run.
Qed.

(** The two-byte sample is not a valid archive. *)
Lemma extract_zip_open_failure_witness :
  extract_zip Sample.libs "input.bin" Sample.two_bytes "out" false Sample.fs0 =
  (Sample.fs0,
   [CallZipFile "input.bin"; Log ERROR (NotValidZip "input.bin")], Ok false).
Proof.
  destruct (extract_zip_open_failure Sample.libs "input.bin" Sample.two_bytes
              "out" false Sample.fs0) as [H _].
  apply (H "File is not a zip file"). reflexivity.
Defined.

(** X8. [extract_ole] checks the signature itself before it opens the
    file: a file [olefile.isOleFile] rejects is reported as not valid and
    [OleFileIO] is never called on it.  When the stream directory cannot
    be listed after a successful open, the run has already announced the
    file and ends with the error; in every failure the file system is
    untouched and the value is [False]. *)
Theorem extract_ole_open_failure L fp inp od lo fs :
  let run := extract_ole L fp inp od lo fs in
  (ole_open_result L inp = OleNotOle ->
   run = (fs, [CallIsOleFile fp; Log ERROR (NotValidOle fp)], Ok false)) /\
  (forall e,
     ole_open_result L inp = OleUnreadable e ->
     run = (fs, [CallIsOleFile fp; Log ERROR (ErrorProcessing fp (exn_msg e))],
            Ok false)) /\
  (forall e,
     ole_open_result L inp = OleOpenFails e ->
     run = (fs, [CallIsOleFile fp; CallOleFileIO fp;
                 Log ERROR (ErrorProcessing fp (exn_msg e))], Ok false)) /\
  (forall e,
     ole_open_result L inp = OleListdirFails e ->
     run = (fs, [CallIsOleFile fp; CallOleFileIO fp;
                 Log INFO (ProcessingOle fp); CallListdir;
                 Log ERROR (ErrorProcessing fp (exn_msg e))], Ok false)) /\
  (In (CallOleFileIO fp) (trace_of run) ->
   exists b, inp = Readable b /\ olefile_isOleFile L b = true).
Proof.
  cbv zeta. split; [|split; [|split; [|split]]].
  - intros H. now rewrite extract_ole_run, H.
  - intros e H. now rewrite extract_ole_run, H.
  - intros e H. now rewrite extract_ole_run, H.
  - intros e H. now rewrite extract_ole_run, H.
  - rewrite extract_ole_run. unfold ole_open_result, trace_of.
    destruct inp as [| e | e | b]; simpl.
    + intros H; in_cases H.
    + intros H; in_cases H.
    + intros H; in_cases H.
    + destruct (olefile_isOleFile L b) eqn:Hb;
        [intros _; now exists b | intros H; in_cases H].
Qed.

(** The ZIP sample is not a compound file. *)
Lemma extract_ole_open_failure_witness :
  extract_ole Sample.libs "input.bin" Sample.zip_file "out" false Sample.fs0 =
  (Sample.fs0,
   [CallIsOleFile "input.bin"; Log ERROR (NotValidOle "input.bin")], Ok false).
Proof.
  destruct (extract_ole_open_failure Sample.libs "input.bin" Sample.zip_file
              "out" false Sample.fs0) as [H _].
  apply H. reflexivity.
Defined.

Lemma ole_stream_events_no_close L fs ole od lo s :
  ~ In CallOleClose (ole_stream_events L fs ole od lo s).
Proof.
  unfold ole_stream_events.
  destruct s as [|c s]; [intros []|]. simpl.
  destruct (openstream_read ole _) as [d' | e]; simpl;
    [destruct lo; simpl;
     [|destruct (open_error fs _); simpl;
       [|destruct (write_error fs _ d'); simpl]]|];
    intros H; in_cases H.
Qed.

(** X9. The compound file is closed exactly when it was opened and its
    directory listed: then [ole.close()] is the last thing the run does,
    once.  When [ole.listdir()] raises after a successful open, the
    handler is reached with the file still open and it is never
    closed. *)
Theorem ole_closed_only_after_the_loop L fp inp od lo fs :
  let t := trace_of (extract_ole L fp inp od lo fs) in
  match ole_open_result L inp with
  | OleOpened _ _ =>
      exists t', t = t' ++ [CallOleClose] /\ ~ In CallOleClose t'
  | OleListdirFails _ => In (CallOleFileIO fp) t /\ ~ In CallOleClose t
  | _ => ~ In CallOleClose t
  end.
Proof.
  cbv zeta. rewrite extract_ole_run.
  destruct (ole_open_result L inp) as [e | | e | e | ole streams];
    unfold trace_of; cbn [fst snd];
    try (intros H; in_cases H).
  - split; [right; now left | intros H; in_cases H].
  - exists ([CallIsOleFile fp; CallOleFileIO fp; Log INFO (ProcessingOle fp);
             CallListdir] ++ flat_map (ole_stream_events L fs ole od lo) streams).
    split; [now rewrite <- app_assoc|].
    intros [H | [H | [H | [H | H]]]]; try discriminate.
    apply in_flat_map in H as (s & _ & H).
    now apply ole_stream_events_no_close in H.
Qed.

(** ** 20. Listings and destinations once more *)




Lemma ole_stream_events_reads L fs ole od lo c s :
  In (CallOpenstream (PyStr.join "/" (c :: s)))
     (ole_stream_events L fs ole od lo (c :: s)).
Proof. now left. Qed.

(** X11. Listing a compound file: nothing is opened for writing, nothing
    is written and the file system is as before, but every named stream
    is opened and read all the same. *)
Theorem ole_list_only_reads_but_never_writes L fp inp od fs ole streams :
  ole_open_result L inp = OleOpened ole streams ->
  let run := extract_ole L fp inp od true fs in
  fs_of run = fs /\
  (forall p, ~ In (CallOpenWb p) (trace_of run)) /\
  (forall p d, ~ In (CallWrite p d) (trace_of run)) /\
  (forall s, In s streams -> s <> [] ->
             In (CallOpenstream (PyStr.join "/" s)) (trace_of run)).
Proof.
  intros Ho. cbv zeta. split; [apply extract_ole_list_fs|].
  rewrite extract_ole_run, Ho. unfold trace_of. cbn [fst snd].
  split; [|split].
  - intros p [H | [H | [H | [H | H]]]]; try discriminate.
    apply in_app_or in H as [H | H]; [|in_cases H].
    apply in_flat_map in H as (s & _ & H).
    unfold ole_stream_events in H. destruct s as [|c s]; [exact H|].
    simpl in H. destruct (openstream_read ole _); in_cases H.
  - intros p d [H | [H | [H | [H | H]]]]; try discriminate.
    apply in_app_or in H as [H | H]; [|in_cases H].
    apply in_flat_map in H as (s & _ & H).
    now apply ole_stream_events_write in H as (Hlo & _).
  - intros s Hin Hne. do 4 right. apply in_or_app. left.
    apply in_flat_map. exists s. split; [exact Hin|].
    destruct s as [|c s]; [congruence|]. apply ole_stream_events_reads.
Qed.

Lemma ole_list_only_witness :
  fs_of (extract_ole Sample.libs "input.bin" Sample.ole_file "out" true
           Sample.fs0) = Sample.fs0.
Proof.
  exact (proj1 (ole_list_only_reads_but_never_writes Sample.libs "input.bin"
                  Sample.ole_file "out" Sample.fs0 Sample.compound
                  [["Root Entry"; "Data"]; ["a"; ""]; ["broken"]] eq_refl)).
Defined.



Lemma replace_app a b old new :
  PyStr.replace (a +:+ b) old new =
  PyStr.replace a old new +:+ PyStr.replace b old new.
Proof.
  induction a as [|x a IH]; push_app; [reflexivity|].
  simpl. push_app. now rewrite IH.
Qed.

(** X13. Flattening is not injective.  Two archive members with the same
    final segment in different directories have one destination; so have
    the stream [a] / [b] below a storage and the top-level stream [a_b],
    because the separator of the joined path is replaced by an
    underscore. *)
Theorem destinations_can_collide od :
  (forall dir1 dir2 segment,
     PyStr.contains segment OsPath.sep = false ->
     zip_output_path od (dir1 +:+ String OsPath.sep segment) =
     zip_output_path od (dir2 +:+ String OsPath.sep segment)) /\
  (forall a b,
     ole_output_path od [a; b] = ole_output_path od [a +:+ String "_" b]).
Proof.
  split.
  - intros dir1 dir2 segment H.
    rewrite !zip_output_path_prefix. now rewrite !basename_app.
  - intros a b. rewrite !ole_output_path_prefix. f_equal.
    change (PyStr.join "/" [a; b]) with (a +:+ String "/" b).
    change (PyStr.join "/" [a +:+ String "_" b]) with (a +:+ String "_" b).
    rewrite !replace_app. reflexivity.
Qed.

Lemma destinations_can_collide_witness :
  zip_output_path "out" "a/x.txt" = zip_output_path "out" "b/x.txt".
Proof.
  destruct (destinations_can_collide "out") as [H _].
  apply (H "a" "b" "x.txt"). reflexivity.
Defined.

(** ** 21. The files after a run *)




(** ** 22. A clean extraction *)


